(** * aster: kind classification, node reflection and the printer/writer

    A shallow embedding of the Go package [aster]:
    - the [Kind] enumeration and [getBasicKind];
    - the common node state [super] with its Func-only, Type-only and
      Struct-only operations, each of which ends in a [panic];
    - [format.go]: [Format], [String], [Store] and [writeFile].

    Go functions that may panic return an [outcome]; Go functions returning
    [(T, error)] return a pair [T * option error]; code that touches the disk
    threads a storage state explicitly. *)

From stdpp Require Import base option list strings gmap fin_maps.
From Stdlib Require Import ZArith Ascii.

Open Scope string_scope.
Open Scope list_scope.

(* ===================================================================== *)
(** ** Kinds *)
(* ===================================================================== *)

(** [type Kind uint] with its [iota] enumeration. *)
Inductive Kind : Type :=
| Invalid | Suspense
| Bool | Int | Int8 | Int16 | Int32 | Int64
| Uint | Uint8 | Uint16 | Uint32 | Uint64 | Uintptr
| Float32 | Float64 | Complex64 | Complex128
| String
| Interface | Chan | Array | Slice | Map | Func | Struct | Ptr.

#[global] Instance Kind_eq_dec : EqDecision Kind.
Proof. solve_decision. Defined.

(** The numeric value [iota] gives each constant. *)
Definition Kind_value (k : Kind) : Z :=
  match k with
  | Invalid => 0 | Suspense => 1
  | Bool => 2 | Int => 3 | Int8 => 4 | Int16 => 5 | Int32 => 6 | Int64 => 7
  | Uint => 8 | Uint8 => 9 | Uint16 => 10 | Uint32 => 11 | Uint64 => 12
  | Uintptr => 13
  | Float32 => 14 | Float64 => 15 | Complex64 => 16 | Complex128 => 17
  | String => 18
  | Interface => 19 | Chan => 20 | Array => 21 | Slice => 22 | Map => 23
  | Func => 24 | Struct => 25 | Ptr => 26
  end%Z.

(** [getBasicKind]: the [switch] compares [basicName] with each case in
    turn; the [default] branch returns [Invalid, false]. *)
Definition getBasicKind (basicName : string) : Kind * bool :=
  if String.eqb basicName "bool" then (Bool, true)
  else if String.eqb basicName "int" then (Int, true)
  else if String.eqb basicName "int8" then (Int8, true)
  else if String.eqb basicName "int16" then (Int16, true)
  else if String.eqb basicName "int32" then (Int32, true)
  else if String.eqb basicName "int64" then (Int64, true)
  else if String.eqb basicName "uint" then (Uint, true)
  else if String.eqb basicName "uint8" then (Uint8, true)
  else if String.eqb basicName "uint16" then (Uint16, true)
  else if String.eqb basicName "uint32" then (Uint32, true)
  else if String.eqb basicName "uint64" then (Uint64, true)
  else if String.eqb basicName "uintptr" then (Uintptr, true)
  else if String.eqb basicName "float32" then (Float32, true)
  else if String.eqb basicName "float64" then (Float64, true)
  else if String.eqb basicName "complex64" then (Complex64, true)
  else if String.eqb basicName "complex128" then (Complex128, true)
  else if String.eqb basicName "string" then (String, true)
  else (Invalid, false).

(** The builtin table as the specification lists it: the primitive type
    identifiers, each with its Kind.  [getBasicKind] is compared with it. *)
Definition builtin_kinds : list (string * Kind) :=
  [ ("bool", Bool); ("int", Int); ("int8", Int8); ("int16", Int16);
    ("int32", Int32); ("int64", Int64); ("uint", Uint); ("uint8", Uint8);
    ("uint16", Uint16); ("uint32", Uint32); ("uint64", Uint64);
    ("uintptr", Uintptr); ("float32", Float32); ("float64", Float64);
    ("complex64", Complex64); ("complex128", Complex128);
    ("string", String) ].

(* ===================================================================== *)
(** ** Nodes *)
(* ===================================================================== *)

(** A call either returns a value or panics with a message; nothing in the
    package recovers. *)
Inductive outcome (A : Type) : Type :=
| Returns (a : A)
| Panics (msg : string).
Arguments Returns {A} a.
Arguments Panics {A} msg.

(** [FuncField]: function params or results. *)
Record FuncField : Type := mkFuncField {
  FuncField_Name : string;
  FuncField_TypeName : string
}.

(** Modelled from the spec: the declaration of [StructField] is not in the
    sources; the specification gives it as [StructField{Name, TypeName}]. *)
Record StructField : Type := mkStructField {
  StructField_Name : string;
  StructField_TypeName : string
}.

(** [super]: the common node state.  The [*string] fields are the strings
    they point to ([None] for a nil [namePtr] or a nil [doc]); the
    back-pointer [file] only serves [pkgNamePtr] and [filenamePtr]. *)
Record super : Type := mkSuper {
  kind : Kind;
  namePtr : option string;
  pkgNamePtr : string;
  filenamePtr : string;
  doc : option string
}.

(** [Node], [FuncNode] and [TypeNode] are interfaces; the methods below
    are the ones [super] gives to every type that embeds it, so a node is
    seen here through its [super]. *)
Abbreviation Node := super (only parsing).
Abbreviation FuncNode := super (only parsing).
Abbreviation TypeNode := super (only parsing).

(** Go's [error] values, observed through [Error()]. *)
Record error : Type := mkError { Error : string }.

#[global] Instance error_eq_dec : EqDecision error.
Proof. solve_decision. Defined.

Definition node_Kind (s : super) : Kind := kind s.

Definition node_Name (s : super) : string :=
  match namePtr s with
  | None => ""
  | Some n => n
  end.

Definition node_PkgName (s : super) : string := pkgNamePtr s.
Definition node_Filename (s : super) : string := filenamePtr s.

Definition node_Doc (s : super) : string :=
  match doc s with
  | None => ""
  | Some d => d
  end.

(** The panic messages of the source. *)
Definition must_be_Func : string := "aster: Kind must be aster.Func!".
Definition cant_be_Func : string := "aster: Kind cant not be aster.Func!".
Definition must_be_Struct : string := "aster: Kind must be aster.Struct!".
Definition coming_soon : string := "aster: (TODO) Coming soon!".

(** Every operation below has the source's shape: a guard on the kind
    that panics, then the placeholder panic.  None has a [return]. *)

(** *** Kind: Func *)

Definition NumParam (s : super) : outcome Z :=
  if decide (kind s ≠ Func) then Panics must_be_Func
  else Panics coming_soon.

Definition NumResult (s : super) : outcome Z :=
  if decide (kind s ≠ Func) then Panics must_be_Func
  else Panics coming_soon.

Definition Param (s : super) (i : Z) : outcome (option FuncField * bool) :=
  if decide (kind s ≠ Func) then Panics must_be_Func
  else Panics coming_soon.

Definition Result (s : super) (i : Z) : outcome (option FuncField * bool) :=
  if decide (kind s ≠ Func) then Panics must_be_Func
  else Panics coming_soon.

Definition IsVariadic (s : super) : outcome bool :=
  if decide (kind s ≠ Func) then Panics must_be_Func
  else Panics coming_soon.

Definition Recv (s : super) : outcome (option FuncField * bool) :=
  if decide (kind s ≠ Func) then Panics must_be_Func
  else Panics coming_soon.

(** *** Type *)

Definition IsAssign (s : super) : outcome bool :=
  if decide (kind s = Func) then Panics cant_be_Func
  else Panics coming_soon.

Definition NumMethod (s : super) : outcome Z :=
  if decide (kind s = Func) then Panics cant_be_Func
  else Panics coming_soon.

Definition Method (s : super) (i : Z) : outcome (option FuncNode * bool) :=
  if decide (kind s = Func) then Panics cant_be_Func
  else Panics coming_soon.

Definition MethodByName (s : super) (name : string)
  : outcome (option FuncNode * bool) :=
  if decide (kind s = Func) then Panics cant_be_Func
  else Panics coming_soon.

Definition Implements (s : super) (u : TypeNode) : outcome bool :=
  if decide (kind s = Func) then Panics cant_be_Func
  else Panics coming_soon.

(** [addMethod] is declared to return an [error] (nil or not). *)
Definition addMethod (s : super) (f : FuncNode) : outcome (option error) :=
  if decide (kind s = Func) then Panics cant_be_Func
  else Panics coming_soon.

(** *** Only for Kind = Struct *)

Definition NumField (s : super) : outcome Z :=
  if decide (kind s ≠ Struct) then Panics must_be_Struct
  else Panics coming_soon.

Definition Field (s : super) (i : Z) : outcome (option StructField) :=
  if decide (kind s ≠ Struct) then Panics must_be_Struct
  else Panics coming_soon.

Definition FieldByName (s : super) (name : string)
  : outcome (option StructField * bool) :=
  if decide (kind s ≠ Struct) then Panics must_be_Struct
  else Panics coming_soon.

(** An outcome is a precondition error when it is one of the three
    wrong-kind panics (and not the placeholder panic, and not a value). *)
Definition precondition_error {A : Type} (o : outcome A) : bool :=
  match o with
  | Returns _ => false
  | Panics msg =>
      String.eqb msg must_be_Func || String.eqb msg cant_be_Func
      || String.eqb msg must_be_Struct
  end.

Definition returned {A : Type} (o : outcome A) : bool :=
  match o with
  | Returns _ => true
  | Panics _ => false
  end.

(** Nodes to run the operations on: [type T struct{...}],
    [type U interface{...}] and [func f(...)]. *)
Definition struct_T : super := mkSuper Struct (Some "T") "demo" "t.go" None.
Definition interface_U : super :=
  mkSuper Interface (Some "U") "demo" "u.go" None.
Definition func_f : super := mkSuper Func (Some "f") "demo" "f.go" None.

(* ===================================================================== *)
(** ** The printer and writer (format.go) *)
(* ===================================================================== *)

(** *** What the package calls outside itself *)

(** [go/format]: [format.Node(&dst, fset, node)] leaves bytes in [dst] and
    returns an error or nil. *)
Class GoFormat (FileSet ast_Node : Type) : Type :=
  format_Node : FileSet → ast_Node → string * option error.

(** The order in which a [for k, v := range m] visits a map.  Go leaves
    it unspecified: every result below holds for each order.  The order is
    taken here as a function of the map, whereas Go may visit the same map
    differently at each statement; every result below is about one run of
    one function, and none compares the orders of two loops or two runs. *)
Class MapRange : Type :=
  range : ∀ A : Type, gmap string A → list (string * A).
Arguments range {_ _} _.

Class MapRangeLaws `{!MapRange} : Prop :=
  range_perm : ∀ (A : Type) (m : gmap string A), range m ≡ₚ map_to_list m.

(** [path/filepath] and [os] over a storage state [W].  An open file is
    known by the name it was created under. *)
Class Storage (W : Type) : Type := {
  filepath_Abs : string → string * option error;
  filepath_Dir : string → string;
  os_MkdirAll : string → W → W * option error;
  os_Create : string → W → W * option error;
  File_Write : string → string → W → W * option error;
  (** observations: a file's bytes, and whether a path is a directory *)
  content : W → string → option string;
  is_dir : W → string → bool
}.

(** What the calls do to the observations, whether they fail or not:
    [MkdirAll] touches no file and, returning nil, leaves the directory in
    place; [Create] and [Write] touch the one file they name; [Create]
    returning nil leaves it empty; [Write] returning nil has appended the
    bytes. *)
Class StorageLaws (W : Type) `{!Storage W} : Prop := {
  MkdirAll_content : ∀ d w p, content (os_MkdirAll d w).1 p = content w p;
  MkdirAll_keeps : ∀ d w x,
    is_dir w x = true → is_dir (os_MkdirAll d w).1 x = true;
  MkdirAll_ok : ∀ d w,
    (os_MkdirAll d w).2 = None → is_dir (os_MkdirAll d w).1 d = true;
  Create_frame : ∀ p w q, q ≠ p → content (os_Create p w).1 q = content w q;
  Create_ok : ∀ p w,
    (os_Create p w).2 = None → content (os_Create p w).1 p = Some "";
  Create_dirs : ∀ p w x, is_dir (os_Create p w).1 x = is_dir w x;
  Write_frame : ∀ p t w q,
    q ≠ p → content (File_Write p t w).1 q = content w q;
  Write_ok : ∀ p t w old,
    content w p = Some old → (File_Write p t w).2 = None →
    content (File_Write p t w).1 p = Some (old +:+ t);
  Write_dirs : ∀ p t w x, is_dir (File_Write p t w).1 x = is_dir w x
}.

(** *** Module, Package, File *)

(** The fields [format.go] reads; the parser mode, scope, imports and the
    back-pointers [pkg] and [module] play no part in it. *)
Record File (FileSet ast_Node : Type) : Type := mkFile {
  File_ast : ast_Node;          (* the embedded *ast.File *)
  File_PkgName : string;
  File_FileSet : FileSet;
  File_Filename : string;
  File_Src : string;
  File_Nodes : gmap Z super
}.
Arguments mkFile {_ _} _ _ _ _ _ _.
Arguments File_ast {_ _} _.
Arguments File_PkgName {_ _} _.
Arguments File_FileSet {_ _} _.
Arguments File_Filename {_ _} _.
Arguments File_Src {_ _} _.
Arguments File_Nodes {_ _} _.

Record Package (FileSet ast_Node : Type) : Type := mkPackage {
  Package_FileSet : FileSet;
  Package_Dir : string;
  Package_Name : string;
  Package_Files : gmap string (File FileSet ast_Node)
}.
Arguments mkPackage {_ _} _ _ _ _.
Arguments Package_FileSet {_ _} _.
Arguments Package_Dir {_ _} _.
Arguments Package_Name {_ _} _.
Arguments Package_Files {_ _} _.

Record Module_ (FileSet ast_Node : Type) : Type := mkModule {
  Module_FileSet : FileSet;
  Module_Dir : string;
  Module_Packages : gmap string (Package FileSet ast_Node)
}.
Arguments mkModule {_ _} _ _ _.
Arguments Module_FileSet {_ _} _.
Arguments Module_Dir {_ _} _.
Arguments Module_Packages {_ _} _.

(** *** Formatting *)

Section Format.
Context {FileSet ast_Node : Type} `{!GoFormat FileSet ast_Node} `{!MapRange}.

(** [FormatNode]: the three receivers run the same body on their own
    [FileSet]. *)
Definition FormatNode (fset : FileSet) (node : ast_Node)
  : string * option error :=
  let '(dst, err) := format_Node fset node in
  match err with
  | Some e => ("", Some e)
  | None => (dst, None)
  end.

Definition Module_FormatNode (m : Module_ FileSet ast_Node)
  (node : ast_Node) : string * option error :=
  FormatNode (Module_FileSet m) node.

Definition Package_FormatNode (p : Package FileSet ast_Node)
  (node : ast_Node) : string * option error :=
  FormatNode (Package_FileSet p) node.

Definition File_FormatNode (f : File FileSet ast_Node)
  (node : ast_Node) : string * option error :=
  FormatNode (File_FileSet f) node.

(** [TryFormatNode]: the default is used only when formatting fails and a
    default was passed. *)
Definition File_TryFormatNode (f : File FileSet ast_Node)
  (node : ast_Node) (defaultValue : list string) : string :=
  let '(code, err) := File_FormatNode f node in
  match err, defaultValue with
  | Some _, d :: _ => d
  | _, _ => code
  end.

(** [File.Format] *)
Definition File_Format (f : File FileSet ast_Node) : string * option error :=
  File_FormatNode f (File_ast f).

(** [File.String]: [fmt.Sprintf] with one [%s] verb. *)
Definition File_String (f : File FileSet ast_Node) : string :=
  let '(s, err) := File_Format f in
  match err with
  | Some e => "// Formatting error: " +:+ Error e
  | None => s
  end.

(** [Package.Format]: the loop over [p.Files], returning at the first
    file that fails with the codes gathered so far. *)
Fixpoint Package_Format_loop (files : list (string * File FileSet ast_Node))
  (codes : gmap string string) : gmap string string * option error :=
  match files with
  | [] => (codes, None)
  | (k, v) :: files =>
      let '(code, first) := File_Format v in
      match first with
      | Some e => (codes, Some e)
      | None => Package_Format_loop files (<[k := code]> codes)
      end
  end.

Definition Package_Format (p : Package FileSet ast_Node)
  : gmap string string * option error :=
  Package_Format_loop (range (Package_Files p)) ∅.

(** [Module.Format]: the loop over [m.Packages]. *)
Fixpoint Module_Format_loop
  (pkgs : list (string * Package FileSet ast_Node))
  (codes : gmap string (gmap string string))
  : gmap string (gmap string string) * option error :=
  match pkgs with
  | [] => (codes, None)
  | (k, v) :: pkgs =>
      let '(subcodes, err) := Package_Format v in
      match err with
      | Some e => (codes, Some e)
      | None => Module_Format_loop pkgs (<[k := subcodes]> codes)
      end
  end.

Definition Module_Format (m : Module_ FileSet ast_Node)
  : gmap string (gmap string string) * option error :=
  Module_Format_loop (range (Module_Packages m)) ∅.

(** The text a file is rendered to. *)
Definition rendered (f : File FileSet ast_Node) : string :=
  (File_Format f).1.

(** Some file of the package, resp. of a package of the module, fails to
    format with the error [e]. *)
Definition Package_fails_with (p : Package FileSet ast_Node) (e : error)
  : Prop :=
  ∃ k f, Package_Files p !! k = Some f ∧ (File_Format f).2 = Some e.

Definition Module_fails_with (m : Module_ FileSet ast_Node) (e : error)
  : Prop :=
  ∃ pk p, Module_Packages m !! pk = Some p ∧ Package_fails_with p e.

(** *** Writing *)

Context {W : Type} `{!Storage W}.

Definition writeFile (filename text : string) (w : W) : W * option error :=
  let '(filename, err) := filepath_Abs filename in
  match err with
  | Some e => (w, Some e)
  | None =>
      let dir := filepath_Dir filename in
      let '(w, err) := os_MkdirAll dir w in
      match err with
      | Some e => (w, Some e)
      | None =>
          let '(w, err) := os_Create filename w in
          match err with
          | Some e => (w, Some e)
          | None => File_Write filename text w
          end
      end
  end.

(** The loop [for k, v := range codes { first = writeFile(k, v); ... }],
    over the entries in the order the range visits them. *)
Fixpoint write_codes (codes : list (string * string)) (w : W)
  : W * option error :=
  match codes with
  | [] => (w, None)
  | (k, v) :: codes =>
      let '(w, first) := writeFile k v w in
      match first with
      | Some e => (w, Some e)
      | None => write_codes codes w
      end
  end.

(** [Package.Store] *)
Definition Package_Store (p : Package FileSet ast_Node) (w : W)
  : W * option error :=
  let '(codes, first) := Package_Format p in
  match first with
  | Some e => (w, Some e)
  | None => write_codes (range codes) w
  end.

(** The outer loop of [Module.Store]; the inner loop is [write_codes]. *)
Fixpoint Module_Store_loop (codes : list (string * gmap string string))
  (w : W) : W * option error :=
  match codes with
  | [] => (w, None)
  | (_, v) :: codes =>
      let '(w, first) := write_codes (range v) w in
      match first with
      | Some e => (w, Some e)
      | None => Module_Store_loop codes w
      end
  end.

(** [Module.Store] *)
Definition Module_Store (m : Module_ FileSet ast_Node) (w : W)
  : W * option error :=
  let '(codes, first) := Module_Format m in
  match first with
  | Some e => (w, Some e)
  | None => Module_Store_loop (range codes) w
  end.

(** [File.Store] *)
Definition File_Store (f : File FileSet ast_Node) (w : W)
  : W * option error :=
  let '(code, err) := File_Format f in
  match err with
  | Some e => (w, Some e)
  | None => writeFile (File_Filename f) code w
  end.

(** The absolute name an entry is stored under. *)
Definition abs_path (filename : string) : string :=
  (filepath_Abs filename).1.

(** The entries one run of [Store] hands to [writeFile], in order. *)
Definition Package_writes (p : Package FileSet ast_Node)
  : list (string * string) :=
  range (Package_Format p).1.

Definition Module_writes (m : Module_ FileSet ast_Node)
  : list (string * string) :=
  flat_map (λ kv, range kv.2) (range (Module_Format m).1).

(** An entry is in place: its file holds the rendered text and its parent
    directory exists. *)
Definition in_place (w : W) (kv : string * string) : Prop :=
  content w (abs_path kv.1) = Some kv.2
  ∧ is_dir w (filepath_Dir (abs_path kv.1)) = true.


End Format.

(* ===================================================================== *)
(** ** A small storage, formatter and range order to run the code on *)
(* ===================================================================== *)

(** Files by absolute name, the directories that exist, and the
    directories in which no file can be created. *)
Record disk : Type := mkDisk {
  disk_files : gmap string string;
  disk_dirs : gset string;
  disk_readonly : gset string
}.

(** Relative names are taken from the working directory [/work]. *)
Definition disk_Abs (p : string) : string * option error :=
  match p with
  | String.String c _ =>
      if Ascii.eqb c "/"%char then (p, None) else ("/work/" +:+ p, None)
  | EmptyString => ("/work", None)
  end.

(** [Some d] when [p] has a slash, [d] being what stands before the last
    one. *)
Fixpoint before_last_slash (p : string) : option string :=
  match p with
  | EmptyString => None
  | String.String c p' =>
      match before_last_slash p' with
      | Some d => Some (String.String c d)
      | None => if Ascii.eqb c "/"%char then Some EmptyString else None
      end
  end.

Definition disk_Dir (p : string) : string :=
  match before_last_slash p with
  | Some EmptyString => "/"
  | Some d => d
  | None => "."
  end.

Definition disk_MkdirAll (d : string) (w : disk) : disk * option error :=
  match disk_files w !! d with
  | Some _ => (w, Some (mkError ("mkdir " +:+ d +:+ ": not a directory")))
  | None =>
      (mkDisk (disk_files w) ({[d]} ∪ disk_dirs w) (disk_readonly w), None)
  end.

Definition disk_Create (p : string) (w : disk) : disk * option error :=
  if bool_decide (disk_Dir p ∈ disk_readonly w)
  then (w, Some (mkError ("open " +:+ p +:+ ": permission denied")))
  else if bool_decide (disk_Dir p ∈ disk_dirs w)
  then (mkDisk (<[p := ""]> (disk_files w)) (disk_dirs w) (disk_readonly w),
        None)
  else (w, Some (mkError ("open " +:+ p +:+ ": no such file or directory"))).

Definition disk_Write (p text : string) (w : disk) : disk * option error :=
  match disk_files w !! p with
  | Some old =>
      (mkDisk (<[p := old +:+ text]> (disk_files w)) (disk_dirs w)
         (disk_readonly w), None)
  | None => (w, Some (mkError ("write " +:+ p +:+ ": file already closed")))
  end.

#[global] Instance disk_Storage : Storage disk := {|
  filepath_Abs := disk_Abs;
  filepath_Dir := disk_Dir;
  os_MkdirAll := disk_MkdirAll;
  os_Create := disk_Create;
  File_Write := disk_Write;
  content := λ w p, disk_files w !! p;
  is_dir := λ w x, bool_decide (x ∈ disk_dirs w)
|}.

(** A formatter over sources that are either well formed, and rendered as
    they are, or not. *)
Definition sample_format : GoFormat unit (option string) :=
  λ _ node,
    match node with
    | Some src => (src, None)
    | None => ("", Some (mkError "format: invalid node"))
    end.

(** One possible range order. *)
Definition sample_range : MapRange := λ A m, map_to_list m.

Definition sample_file (name : string) (node : option string)
  : File unit (option string) :=
  mkFile node "demo" tt name "" ∅.

Definition empty_disk : disk := mkDisk ∅ ∅ ∅.

(** Three well-formed files.  [sample_range] visits the rendered codes in
    the order three.go, one.go, two.go. *)
Definition three_files : Package unit (option string) :=
  mkPackage tt "/src" "demo"
    (<["/src/a/one.go" := sample_file "/src/a/one.go" (Some "package a")]>
     (<["/src/b/two.go" := sample_file "/src/b/two.go" (Some "package b")]>
      (<["/src/c/three.go" :=
           sample_file "/src/c/three.go" (Some "package c")]> ∅))).

(** A package with one file that does not format. *)
Definition one_bad_file : Package unit (option string) :=
  mkPackage tt "/src" "demo"
    (<["/src/a/one.go" := sample_file "/src/a/one.go" (Some "package a")]>
     (<["/src/b/bad.go" := sample_file "/src/b/bad.go" None]> ∅)).

(** A storage in which no file can be created in [/src/a]. *)
Definition a_readonly : disk := mkDisk ∅ ∅ {["/src/a"]}.

Definition sample_Package_Store
  : Package unit (option string) → disk → disk * option error :=
  @Package_Store unit (option string) sample_format sample_range disk
    disk_Storage.

Definition sample_File_String : File unit (option string) → string :=
  @File_String unit (option string) sample_format.

(** A package without files, a module with the one package
    [three_files], and a module whose two packages name the same file. *)
Definition no_files : Package unit (option string) :=
  mkPackage tt "/src" "empty" ∅.

Definition one_package : Module_ unit (option string) :=
  mkModule tt "/src" {["demo" := three_files]}.

Definition same_file_twice : Module_ unit (option string) :=
  mkModule tt "/src"
    (<["p1" := mkPackage tt "/src" "p1"
                 {["/src/x.go" := sample_file "/src/x.go" (Some "package p1")]}]>
     (<["p2" := mkPackage tt "/src" "p2"
                  {["/src/x.go" :=
                      sample_file "/src/x.go" (Some "package p2")]}]> ∅)).

Definition sample_Module_Store
  : Module_ unit (option string) → disk → disk * option error :=
  @Module_Store unit (option string) sample_format sample_range disk
    disk_Storage.

(** The same storage with room for [quota] bytes in a file: a write that
    would make the file longer fails and leaves the file as [Create] left
    it. *)
Definition disk_Write_quota (quota : nat) (p text : string) (w : disk)
  : disk * option error :=
  match disk_files w !! p with
  | Some old =>
      if decide (String.length (old +:+ text) ≤ quota)%nat
      then (mkDisk (<[p := old +:+ text]> (disk_files w)) (disk_dirs w)
              (disk_readonly w), None)
      else (w, Some (mkError ("write " +:+ p
                              +:+ ": no space left on device")))
  | None => (w, Some (mkError ("write " +:+ p +:+ ": file already closed")))
  end.

Definition quota_Storage (quota : nat) : Storage disk := {|
  filepath_Abs := disk_Abs;
  filepath_Dir := disk_Dir;
  os_MkdirAll := disk_MkdirAll;
  os_Create := disk_Create;
  File_Write := disk_Write_quota quota;
  content := λ w p, disk_files w !! p;
  is_dir := λ w x, bool_decide (x ∈ disk_dirs w)
|}.



(* ===================================================================== *)
(** ** Kind classification *)
(* ===================================================================== *)

Lemma getBasicKind_builtin (s : string) (k : Kind) :
  (s, k) ∈ builtin_kinds → getBasicKind s = (k, true).
Proof.
  unfold builtin_kinds. rewrite !elem_of_cons, elem_of_nil.
  intros H. repeat destruct H as [H | H]; try done;
    injection H as -> ->; reflexivity.
Qed.

Lemma getBasicKind_other (s : string) :
  s ∉ builtin_kinds.*1 → getBasicKind s = (Invalid, false).
Proof.
  unfold builtin_kinds. cbn [fmap list_fmap fst].
  rewrite !not_elem_of_cons. intros H. unfold getBasicKind.
  repeat match goal with
         | |- context [String.eqb s ?n] =>
             destruct (String.eqb_spec s n) as [-> | _]; [ tauto | ]
         end.
  reflexivity.
Qed.

(** C1. The builtin table has 17 names, no two alike; for each of them
    [getBasicKind] returns the Kind the table gives with found = true; for
    every other string it returns [Invalid] with found = false. *)
Theorem getBasicKind_spec :
  length builtin_kinds = 17 ∧ NoDup builtin_kinds.*1
  ∧ ∀ s : string,
      (∀ k, (s, k) ∈ builtin_kinds → getBasicKind s = (k, true))
      ∧ (s ∉ builtin_kinds.*1 → getBasicKind s = (Invalid, false)).
Proof.
  split; [ reflexivity | ]. split.
  - compute_done.
  - intros s. split.
    + intros k. apply getBasicKind_builtin.
    + apply getBasicKind_other.
Qed.

(** The theorem at a builtin name and at a name outside the table. *)
Lemma getBasicKind_spec_witness :
  getBasicKind "uint16" = (Uint16, true)
  ∧ getBasicKind "error" = (Invalid, false).
Proof.
  destruct getBasicKind_spec as (_ & _ & H). split.
  - apply (H "uint16"). compute_done.
  - apply (H "error"). compute_done.
Defined.

(* ===================================================================== *)
(** ** Node operations *)
(* ===================================================================== *)

(** Unfold the fifteen operations and decide their guards. *)
Ltac kind_guards :=
  unfold NumParam, NumResult, Param, Result, IsVariadic, Recv,
    IsAssign, NumMethod, Method, MethodByName, Implements, addMethod,
    NumField, Field, FieldByName;
  repeat case_decide; simpl; try done; try congruence.

(** C6. On a node whose Kind is not Func, each of NumParam, NumResult,
    Param, Result, IsVariadic and Recv panics with the precondition error
    [must_be_Func]; on a node whose Kind is Func, each of IsAssign,
    NumMethod, Method, MethodByName, Implements and addMethod panics with
    the precondition error [cant_be_Func], and each of NumField, Field and
    FieldByName with the precondition error [must_be_Struct].  None of
    them returns a value. *)
Theorem wrong_kind_panics (s : super) :
  (kind s ≠ Func →
     NumParam s = Panics must_be_Func
     ∧ NumResult s = Panics must_be_Func
     ∧ (∀ i, Param s i = Panics must_be_Func)
     ∧ (∀ i, Result s i = Panics must_be_Func)
     ∧ IsVariadic s = Panics must_be_Func
     ∧ Recv s = Panics must_be_Func)
  ∧ (kind s = Func →
       IsAssign s = Panics cant_be_Func
       ∧ NumMethod s = Panics cant_be_Func
       ∧ (∀ i, Method s i = Panics cant_be_Func)
       ∧ (∀ n, MethodByName s n = Panics cant_be_Func)
       ∧ (∀ u, Implements s u = Panics cant_be_Func)
       ∧ (∀ f, addMethod s f = Panics cant_be_Func)
       ∧ NumField s = Panics must_be_Struct
       ∧ (∀ i, Field s i = Panics must_be_Struct)
       ∧ (∀ n, FieldByName s n = Panics must_be_Struct)).
Proof.
  split; intros H.
  - repeat split; intros; kind_guards.
  - assert (kind s ≠ Struct) as HS by (rewrite H; discriminate).
    repeat split; intros; kind_guards.
Qed.

(** The theorem on a struct node and on a function node. *)
Lemma wrong_kind_panics_witness :
  (precondition_error (NumParam struct_T) = true
   ∧ precondition_error (Param struct_T 0) = true)
  ∧ (precondition_error (IsAssign func_f) = true
     ∧ precondition_error (FieldByName func_f "A") = true).
Proof.
  split.
  - destruct (wrong_kind_panics struct_T) as [H _].
    destruct H as (H1 & _ & H3 & _); [ discriminate | ].
    rewrite H1, (H3 0%Z). split; reflexivity.
  - destruct (wrong_kind_panics func_f) as [_ H].
    destruct H as (H1 & _ & _ & _ & _ & _ & _ & _ & H9); [ reflexivity | ].
    rewrite H1, (H9 "A"). split; reflexivity.
Defined.

(** C2. [Implements] never reports anything: whatever the receiver and
    the argument, it does not return; on a struct type asked about an
    interface type, and asked about a type that is no interface, it ends in
    the placeholder panic. *)
Theorem Implements_never_reports :
  (∀ T U : TypeNode, returned (Implements T U) = false)
  ∧ Implements struct_T interface_U = Panics coming_soon
  ∧ Implements struct_T struct_T = Panics coming_soon
  ∧ Implements interface_U interface_U = Panics coming_soon.
Proof.
  split; [ intros; kind_guards | ].
  repeat split; reflexivity.
Qed.

(** C3. [addMethod] attaches nothing: it never returns (no nil, no
    error); the first attach of a method to a struct type already ends in
    the placeholder panic, and so does looking the method up or counting
    the methods. *)
Theorem addMethod_never_attaches :
  (∀ (T : TypeNode) (f : FuncNode), returned (addMethod T f) = false)
  ∧ addMethod struct_T func_f = Panics coming_soon
  ∧ MethodByName struct_T "Foo" = Panics coming_soon
  ∧ NumMethod struct_T = Panics coming_soon.
Proof.
  split; [ intros; kind_guards | ].
  repeat split; reflexivity.
Qed.

(** C4. The field queries answer nothing: they never return; on a node
    of Kind Struct each ends in the placeholder panic. *)
Theorem struct_fields_never_answer :
  (∀ s : super, returned (NumField s) = false)
  ∧ (∀ (s : super) i, returned (Field s i) = false)
  ∧ (∀ (s : super) n, returned (FieldByName s n) = false)
  ∧ NumField struct_T = Panics coming_soon
  ∧ Field struct_T 0 = Panics coming_soon
  ∧ Field struct_T 1 = Panics coming_soon
  ∧ FieldByName struct_T "A" = Panics coming_soon
  ∧ FieldByName struct_T "Z" = Panics coming_soon.
Proof.
  repeat split; intros; try reflexivity; kind_guards.
Qed.

(** C5. On a node of Kind Func, [Param] and [Result] panic at every
    index, in range or not: they never return a not-found result.  (The
    precondition error itself is raised exactly on a node whose Kind is not
    Func, whatever the index.) *)
Theorem Param_Result_never_not_found :
  (∀ (s : super) i, returned (Param s i) = false)
  ∧ (∀ (s : super) i, returned (Result s i) = false)
  ∧ Param func_f (-1) = Panics coming_soon
  ∧ Result func_f (-1) = Panics coming_soon
  ∧ Param func_f 1000 = Panics coming_soon
  ∧ Result func_f 1000 = Panics coming_soon
  ∧ (∀ (s : super) i, precondition_error (Param s i) = true ↔ kind s ≠ Func)
  ∧ (∀ (s : super) i, precondition_error (Result s i) = true ↔ kind s ≠ Func).
Proof.
  do 6 (split; [ intros; try reflexivity; kind_guards | ]).
  split; intros s i; unfold Param, Result; case_decide; simpl;
    (split; [ done | ]); intros; done.
Qed.

(** C7. [IsVariadic] and [NumParam] answer nothing: they never return; on
    a node of Kind Func each ends in the placeholder panic. *)
Theorem IsVariadic_NumParam_never_answer :
  (∀ s : super, returned (IsVariadic s) = false)
  ∧ (∀ s : super, returned (NumParam s) = false)
  ∧ IsVariadic func_f = Panics coming_soon
  ∧ NumParam func_f = Panics coming_soon.
Proof.
  repeat split; intros; try reflexivity; kind_guards.
Qed.

(** *** More on classification and on the operations *)

Lemma builtin_kinds_functional (s : string) (k1 k2 : Kind) :
  (s, k1) ∈ builtin_kinds → (s, k2) ∈ builtin_kinds → k1 = k2.
Proof.
  intros H1 H2. apply getBasicKind_builtin in H1, H2. congruence.
Qed.

Lemma getBasicKind_found (s : string) (k : Kind) :
  getBasicKind s = (k, true) → (s, k) ∈ builtin_kinds.
Proof.
  intros Hs. destruct (decide (s ∈ builtin_kinds.*1)) as [Hin | Hn].
  - apply list_elem_of_fmap in Hin as ([s' k'] & -> & Hin). simpl in *.
    rewrite (getBasicKind_builtin _ _ Hin) in Hs. by injection Hs as ->.
  - rewrite (getBasicKind_other _ Hn) in Hs. discriminate.
Qed.

Lemma builtin_kinds_injective (s1 s2 : string) (k : Kind) :
  (s1, k) ∈ builtin_kinds → (s2, k) ∈ builtin_kinds → s1 = s2.
Proof.
  unfold builtin_kinds. rewrite !elem_of_cons, !elem_of_nil.
  intros H1 H2.
  repeat destruct H1 as [H1 | H1]; try done; injection H1 as -> ->;
    repeat destruct H2 as [H2 | H2]; try done; by injection H2 as ->.
Qed.

(** X12. [getBasicKind] finds a name exactly when the table lists it;
    found is false exactly when the Kind returned is [Invalid]; no two
    names are given the same Kind; and the Kinds found are exactly those
    from [Bool] to [String] in the enumeration (values 2 to 18): never
    [Invalid], [Suspense] or a composite Kind. *)
Theorem getBasicKind_primitives :
  (∀ s k, getBasicKind s = (k, true) ↔ (s, k) ∈ builtin_kinds)
  ∧ (∀ s, (getBasicKind s).2 = false ↔ (getBasicKind s).1 = Invalid)
  ∧ (∀ s1 s2 k, getBasicKind s1 = (k, true) → getBasicKind s2 = (k, true) →
                s1 = s2)
  ∧ (∀ k, (∃ s, getBasicKind s = (k, true)) ↔ (2 ≤ Kind_value k ≤ 18)%Z).
Proof.
  split; [ | split; [ | split ] ].
  - intros s k. split; [ apply getBasicKind_found | ].
    apply getBasicKind_builtin.
  - intros s. destruct (decide (s ∈ builtin_kinds.*1)) as [Hin | Hn].
    + apply list_elem_of_fmap in Hin as ([s' k'] & -> & Hin). simpl.
      rewrite (getBasicKind_builtin _ _ Hin). simpl.
      split; [ done | ]. intros ->. exfalso. revert Hin.
      unfold builtin_kinds. rewrite !elem_of_cons, elem_of_nil.
      intros Hin. repeat destruct Hin as [Hin | Hin]; done.
    + by rewrite (getBasicKind_other _ Hn).
  - intros s1 s2 k H1 H2. apply getBasicKind_found in H1, H2.
    by apply (builtin_kinds_injective s1 s2 k).
  - intros k. split.
    + intros [s Hs]. apply getBasicKind_found in Hs. revert Hs.
      unfold builtin_kinds. rewrite !elem_of_cons, elem_of_nil.
      intros Hs. repeat destruct Hs as [Hs | Hs]; try done;
        injection Hs as -> ->; simpl; lia.
    + intros Hk.
      assert (k ∈ builtin_kinds.*2) as Hin.
      { destruct k; simpl in Hk; try lia; compute_done. }
      apply list_elem_of_fmap in Hin as ([s k'] & -> & Hin).
      exists s. by apply getBasicKind_builtin.
Qed.


(* ===================================================================== *)
(** ** The printer and writer *)
(* ===================================================================== *)

Section FormatProofs.
Context {FileSet ast_Node : Type} `{!GoFormat FileSet ast_Node}.
Context `{!MapRange} `{!MapRangeLaws}.
Context {W : Type} `{!Storage W} `{!StorageLaws W}.

Implicit Types (w : W) (k v q x : string) (l : list (string * string)).
Implicit Types (f : File FileSet ast_Node) (p : Package FileSet ast_Node).
Implicit Types (m : Module_ FileSet ast_Node).

(** *** The range order *)

Lemma elem_of_range {A : Type} (mp : gmap string A) (k : string) (a : A) :
  (k, a) ∈ range mp ↔ mp !! k = Some a.
Proof. rewrite (range_perm A mp). apply elem_of_map_to_list. Qed.

Lemma NoDup_fst_range {A : Type} (mp : gmap string A) :
  NoDup (range mp).*1.
Proof. rewrite (range_perm A mp). apply NoDup_fst_map_to_list. Qed.

Lemma not_elem_of_fst_range {A : Type} (mp : gmap string A) (k : string) :
  k ∉ (range mp).*1 ↔ mp !! k = None.
Proof.
  rewrite list_elem_of_fmap. split.
  - intros Hn. destruct (mp !! k) as [a|] eqn:E; [ | done ].
    exfalso. apply Hn. exists (k, a). split; [ done | ].
    by apply elem_of_range.
  - intros E [[k' a] [-> Hin]]. apply elem_of_range in Hin. simpl in E.
    congruence.
Qed.

(** *** writeFile *)

Lemma writeFile_frame k v w q :
  q ≠ abs_path k → content (writeFile k v w).1 q = content w q.
Proof.
  unfold writeFile, abs_path. destruct (filepath_Abs k) as [a [e|]]; simpl;
    [ done | ].
  intros Hq.
  pose proof (MkdirAll_content (filepath_Dir a) w q) as Hm.
  destruct (os_MkdirAll (filepath_Dir a) w) as [w1 [e|]]; simpl in *;
    [ done | ].
  pose proof (Create_frame a w1 q Hq) as Hc.
  destruct (os_Create a w1) as [w2 [e|]]; simpl in *; [ congruence | ].
  rewrite (Write_frame a v w2 q Hq). congruence.
Qed.

Lemma writeFile_dirs k v w x :
  is_dir w x = true → is_dir (writeFile k v w).1 x = true.
Proof.
  unfold writeFile. destruct (filepath_Abs k) as [a [e|]]; simpl; [ done | ].
  intros Hx.
  pose proof (MkdirAll_keeps (filepath_Dir a) w x Hx) as Hm.
  destruct (os_MkdirAll (filepath_Dir a) w) as [w1 [e|]]; simpl in *;
    [ done | ].
  pose proof (Create_dirs a w1 x) as Hc.
  destruct (os_Create a w1) as [w2 [e|]]; simpl in *; [ congruence | ].
  rewrite (Write_dirs a v w2 x). congruence.
Qed.

Lemma writeFile_ok k v w :
  (writeFile k v w).2 = None → in_place (writeFile k v w).1 (k, v).
Proof.
  unfold writeFile, in_place, abs_path; simpl.
  destruct (filepath_Abs k) as [a [e|]]; simpl; [ done | ].
  pose proof (MkdirAll_ok (filepath_Dir a) w) as Hm.
  destruct (os_MkdirAll (filepath_Dir a) w) as [w1 [e|]]; simpl in *;
    [ done | ].
  pose proof (Create_ok a w1) as Hc.
  pose proof (Create_dirs a w1 (filepath_Dir a)) as Hd.
  destruct (os_Create a w1) as [w2 [e|]]; simpl in *; [ done | ].
  intros Hw. split.
  - rewrite (Write_ok a v w2 "" (Hc eq_refl) Hw). done.
  - rewrite (Write_dirs a v w2). rewrite Hd. by apply Hm.
Qed.

(** *** The write loop *)

Lemma write_codes_app l1 l2 w :
  write_codes (l1 ++ l2) w =
  match write_codes l1 w with
  | (w1, Some e) => (w1, Some e)
  | (w1, None) => write_codes l2 w1
  end.
Proof.
  revert w. induction l1 as [| [k v] l1 IH]; intros w; simpl; [ done | ].
  destruct (writeFile k v w) as [w1 [e|]]; [ done | apply IH ].
Qed.

Lemma write_codes_frame l w q :
  q ∉ abs_path <$> l.*1 → content (write_codes l w).1 q = content w q.
Proof.
  revert w. induction l as [| [k v] l IH]; intros w; simpl; [ done | ].
  rewrite not_elem_of_cons. intros [Hq Hl].
  pose proof (writeFile_frame k v w q Hq) as Hf.
  destruct (writeFile k v w) as [w1 [e|]]; simpl in *; [ done | ].
  rewrite (IH w1 Hl). done.
Qed.

Lemma write_codes_dirs l w x :
  is_dir w x = true → is_dir (write_codes l w).1 x = true.
Proof.
  revert w. induction l as [| [k v] l IH]; intros w; simpl; [ done | ].
  intros Hx. pose proof (writeFile_dirs k v w x Hx) as Hf.
  destruct (writeFile k v w) as [w1 [e|]]; simpl in *; [ done | ].
  by apply IH.
Qed.

Lemma in_place_write_codes l w kv :
  abs_path kv.1 ∉ abs_path <$> l.*1 →
  in_place w kv → in_place (write_codes l w).1 kv.
Proof.
  intros Hn [Hc Hd]. split.
  - by rewrite write_codes_frame.
  - by apply write_codes_dirs.
Qed.



Lemma Module_Store_loop_flat (codes : list (string * gmap string string)) w :
  Module_Store_loop codes w =
  write_codes (flat_map (λ kv, range kv.2) codes) w.
Proof.
  revert w. induction codes as [| [k v] codes IH]; intros w; simpl;
    [ done | ].
  rewrite write_codes_app.
  destruct (write_codes (range v) w) as [w1 [e|]]; [ done | apply IH ].
Qed.

Lemma Package_Store_writes p w :
  (Package_Format p).2 = None →
  Package_Store p w = write_codes (Package_writes p) w.
Proof.
  unfold Package_Store, Package_writes.
  destruct (Package_Format p) as [codes [e|]]; simpl; done.
Qed.

Lemma Module_Store_writes m w :
  (Module_Format m).2 = None →
  Module_Store m w = write_codes (Module_writes m) w.
Proof.
  unfold Module_Store, Module_writes.
  destruct (Module_Format m) as [codes [e|]]; simpl; [ done | ].
  intros _. apply Module_Store_loop_flat.
Qed.



(** *** Formatting *)

Lemma Package_Format_loop_error (files : list (string * File FileSet ast_Node))
  (codes codes' : gmap string string) (e : error) :
  Package_Format_loop files codes = (codes', Some e) →
  ∃ k f, (k, f) ∈ files ∧ (File_Format f).2 = Some e.
Proof.
  revert codes. induction files as [| [k f] files IH]; intros codes; simpl;
    [ done | ].
  destruct (File_Format f) as [code [e'|]] eqn:E.
  - intros [= <- <-]. exists k, f. rewrite E. split; [ left | done ].
  - intros Hl. destruct (IH _ Hl) as (k' & f' & Hin & He).
    exists k', f'. split; [ by right | done ].
Qed.

Lemma Package_Format_loop_fails (files : list (string * File FileSet ast_Node))
  (codes : gmap string string) k f :
  (k, f) ∈ files → (File_Format f).2 ≠ None →
  (Package_Format_loop files codes).2 ≠ None.
Proof.
  revert codes. induction files as [| [k' f'] files IH]; intros codes; simpl.
  { intros Hin. by apply elem_of_nil in Hin. }
  rewrite elem_of_cons. intros Hin Hf.
  destruct (File_Format f') as [code [e'|]] eqn:E; simpl; [ done | ].
  destruct Hin as [[= -> ->] | Hin].
  - rewrite E in Hf. done.
  - by apply IH.
Qed.

Lemma Package_Format_loop_ok (files : list (string * File FileSet ast_Node))
  (codes codes' : gmap string string) :
  NoDup files.*1 →
  Package_Format_loop files codes = (codes', None) →
  (∀ k f, (k, f) ∈ files → codes' !! k = Some (rendered f))
  ∧ (∀ k, k ∉ files.*1 → codes' !! k = codes !! k).
Proof.
  revert codes. induction files as [| [k f] files IH]; intros codes; simpl.
  { intros _ [= <-]. split; [ | done ].
    intros k f Hin. by apply elem_of_nil in Hin. }
  rewrite NoDup_cons. intros [Hk Hnd].
  destruct (File_Format f) as [code [e'|]] eqn:E; [ done | ].
  intros Hl. destruct (IH _ Hnd Hl) as [IH1 IH2]. split.
  - intros k' f'. rewrite elem_of_cons. intros [[= -> ->] | Hin].
    + rewrite (IH2 k Hk), lookup_insert_eq. unfold rendered. by rewrite E.
    + by apply IH1.
  - intros k'. rewrite not_elem_of_cons. intros [Hne Hn].
    rewrite (IH2 k' Hn). by rewrite lookup_insert_ne.
Qed.

Lemma Package_Format_error p codes e :
  Package_Format p = (codes, Some e) →
  ∃ k f, Package_Files p !! k = Some f ∧ (File_Format f).2 = Some e.
Proof.
  intros Hf. apply Package_Format_loop_error in Hf as (k & f & Hin & He).
  exists k, f. split; [ by apply elem_of_range | done ].
Qed.

Lemma Package_Format_fails p k f :
  Package_Files p !! k = Some f → (File_Format f).2 ≠ None →
  (Package_Format p).2 ≠ None.
Proof.
  intros Hin. apply (Package_Format_loop_fails _ _ k f).
  by apply elem_of_range.
Qed.

Lemma Package_Format_ok p codes :
  Package_Format p = (codes, None) →
  ∀ k, codes !! k = rendered <$> Package_Files p !! k.
Proof.
  intros Hf k.
  apply Package_Format_loop_ok in Hf as [H1 H2];
    [ | apply NoDup_fst_range ].
  destruct (Package_Files p !! k) as [f|] eqn:E; simpl.
  - apply H1. by apply elem_of_range.
  - rewrite H2; [ done | ]. by apply not_elem_of_fst_range.
Qed.

Lemma Module_Format_loop_error
  (pkgs : list (string * Package FileSet ast_Node))
  (codes codes' : gmap string (gmap string string)) (e : error) :
  Module_Format_loop pkgs codes = (codes', Some e) →
  ∃ k p, (k, p) ∈ pkgs ∧ (Package_Format p).2 = Some e.
Proof.
  revert codes. induction pkgs as [| [k p] pkgs IH]; intros codes; simpl;
    [ done | ].
  destruct (Package_Format p) as [sub [e'|]] eqn:E.
  - intros [= <- <-]. exists k, p. rewrite E. split; [ left | done ].
  - intros Hl. destruct (IH _ Hl) as (k' & p' & Hin & He).
    exists k', p'. split; [ by right | done ].
Qed.

Lemma Module_Format_loop_fails
  (pkgs : list (string * Package FileSet ast_Node))
  (codes : gmap string (gmap string string)) k p :
  (k, p) ∈ pkgs → (Package_Format p).2 ≠ None →
  (Module_Format_loop pkgs codes).2 ≠ None.
Proof.
  revert codes. induction pkgs as [| [k' p'] pkgs IH]; intros codes; simpl.
  { intros Hin. by apply elem_of_nil in Hin. }
  rewrite elem_of_cons. intros Hin Hf.
  destruct (Package_Format p') as [sub [e'|]] eqn:E; simpl; [ done | ].
  destruct Hin as [[= -> ->] | Hin].
  - rewrite E in Hf. done.
  - by apply IH.
Qed.

Lemma Module_Format_loop_ok
  (pkgs : list (string * Package FileSet ast_Node))
  (codes codes' : gmap string (gmap string string)) :
  NoDup pkgs.*1 →
  Module_Format_loop pkgs codes = (codes', None) →
  (∀ k p, (k, p) ∈ pkgs → codes' !! k = Some (Package_Format p).1)
  ∧ (∀ k, k ∉ pkgs.*1 → codes' !! k = codes !! k).
Proof.
  revert codes. induction pkgs as [| [k p] pkgs IH]; intros codes; simpl.
  { intros _ [= <-]. split; [ | done ].
    intros k p Hin. by apply elem_of_nil in Hin. }
  rewrite NoDup_cons. intros [Hk Hnd].
  destruct (Package_Format p) as [sub [e'|]] eqn:E; [ done | ].
  intros Hl. destruct (IH _ Hnd Hl) as [IH1 IH2]. split.
  - intros k' p'. rewrite elem_of_cons. intros [[= -> ->] | Hin].
    + rewrite (IH2 k Hk), lookup_insert_eq. by rewrite E.
    + by apply IH1.
  - intros k'. rewrite not_elem_of_cons. intros [Hne Hn].
    rewrite (IH2 k' Hn). by rewrite lookup_insert_ne.
Qed.

Lemma Module_Format_error m codes e :
  Module_Format m = (codes, Some e) →
  ∃ pk p k f, Module_Packages m !! pk = Some p
              ∧ Package_Files p !! k = Some f
              ∧ (File_Format f).2 = Some e.
Proof.
  intros Hf. apply Module_Format_loop_error in Hf as (pk & p & Hin & He).
  destruct (Package_Format p) as [sub r] eqn:E. simpl in He. subst r.
  apply Package_Format_error in E as (k & f & Hk & Hfe).
  exists pk, p, k, f. split; [ by apply elem_of_range | done ].
Qed.

Lemma Module_Format_fails m pk p k f :
  Module_Packages m !! pk = Some p → Package_Files p !! k = Some f →
  (File_Format f).2 ≠ None → (Module_Format m).2 ≠ None.
Proof.
  intros Hp Hk Hf. apply (Module_Format_loop_fails _ _ pk p).
  - by apply elem_of_range.
  - by apply (Package_Format_fails p k f).
Qed.

Lemma Module_Format_ok m codes :
  Module_Format m = (codes, None) →
  ∀ pk, codes !! pk
        = (λ p, (Package_Format p).1) <$> Module_Packages m !! pk.
Proof.
  intros Hf pk.
  apply Module_Format_loop_ok in Hf as [H1 H2];
    [ | apply NoDup_fst_range ].
  destruct (Module_Packages m !! pk) as [p|] eqn:E; simpl.
  - apply H1. by apply elem_of_range.
  - rewrite H2; [ done | ]. by apply not_elem_of_fst_range.
Qed.

(** C9. If a file of the package (of the module) fails to format, [Store]
    returns the formatting error of a file of that package (module) and
    leaves the storage as it was; and if no file fails, the writes run over
    the codes of all the files: formatting is complete before the first
    write. *)
Theorem Store_formats_before_writing :
  (∀ p w,
     (∀ e, Package_fails_with p e →
           ∃ e', Package_Store p w = (w, Some e') ∧ Package_fails_with p e')
     ∧ ((∀ e, ¬ Package_fails_with p e) →
        ∃ codes, (∀ k, codes !! k = rendered <$> Package_Files p !! k)
                 ∧ Package_Store p w = write_codes (range codes) w))
  ∧ (∀ m w,
       (∀ e, Module_fails_with m e →
             ∃ e', Module_Store m w = (w, Some e') ∧ Module_fails_with m e')
       ∧ ((∀ e, ¬ Module_fails_with m e) →
          ∃ codes,
            (∀ pk, codes !! pk
                   = (λ p, (Package_Format p).1) <$> Module_Packages m !! pk)
            ∧ Module_Store m w = Module_Store_loop (range codes) w)).
Proof.
  split.
  - intros p w. unfold Package_Store.
    destruct (Package_Format p) as [codes [e'|]] eqn:E; split.
    + intros _ _. exists e'. split; [ done | ].
      by apply (Package_Format_error p codes).
    + intros Hno. exfalso. apply (Hno e').
      by apply (Package_Format_error p codes).
    + intros e (k & f & Hk & He). exfalso.
      apply (Package_Format_fails p k f Hk); [ by rewrite He | ].
      by rewrite E.
    + intros _. exists codes. split; [ | done ].
      by apply Package_Format_ok.
  - intros m w. unfold Module_Store.
    destruct (Module_Format m) as [codes [e'|]] eqn:E; split.
    + intros _ _. exists e'. split; [ done | ].
      apply Module_Format_error in E as (pk & p & k & f & Hp & Hk & He).
      exists pk, p. split; [ done | ]. by exists k, f.
    + intros Hno. exfalso. apply (Hno e').
      apply Module_Format_error in E as (pk & p & k & f & Hp & Hk & He).
      exists pk, p. split; [ done | ]. by exists k, f.
    + intros e (pk & p & Hp & k & f & Hk & He). exfalso.
      apply (Module_Format_fails m pk p k f Hp Hk); [ by rewrite He | ].
      by rewrite E.
    + intros _. exists codes. split; [ | done ].
      by apply Module_Format_ok.
Qed.

(** C10. [File.String] always returns a string: the text [Format]
    renders when it succeeds, and the prefix [// Formatting error: ]
    followed by the error message when it fails. *)
Theorem File_String_total f :
  (∀ e, (File_Format f).2 = Some e →
        File_String f = "// Formatting error: " +:+ Error e)
  ∧ ((File_Format f).2 = None → File_String f = (File_Format f).1).
Proof.
  unfold File_String. destruct (File_Format f) as [s [e'|]]; simpl; split.
  - by intros e [= <-].
  - done.
  - done.
  - done.
Qed.

(** *** More on formatting *)

Lemma Package_Format_succeeds p :
  (∀ k f, Package_Files p !! k = Some f → (File_Format f).2 = None) →
  (Package_Format p).2 = None.
Proof.
  intros Hall. destruct (Package_Format p) as [codes [e|]] eqn:E; [ | done ].
  apply Package_Format_error in E as (k & f & Hk & He).
  rewrite (Hall k f Hk) in He. done.
Qed.

Lemma Package_Format_codes p :
  (Package_Format p).2 = None →
  (Package_Format p).1 = rendered <$> Package_Files p.
Proof.
  destruct (Package_Format p) as [codes r] eqn:E. simpl. intros ->.
  apply map_eq. intros k. rewrite lookup_fmap.
  by apply Package_Format_ok.
Qed.

(** X1. [Package.Format] succeeds exactly when every file of the package
    formats, and then its codes are the package's files, name by name,
    each rendered: the result does not depend on the range order. *)
Theorem Package_Format_complete p :
  ((Package_Format p).2 = None
   ↔ ∀ k f, Package_Files p !! k = Some f → (File_Format f).2 = None)
  ∧ ((Package_Format p).2 = None →
     (Package_Format p).1 = rendered <$> Package_Files p).
Proof.
  split; [ split | ].
  - intros Hok k f Hk. destruct ((File_Format f).2) as [e|] eqn:E; [ | done ].
    exfalso. apply (Package_Format_fails p k f Hk); [ by rewrite E | done ].
  - apply Package_Format_succeeds.
  - apply Package_Format_codes.
Qed.




(** X3. [Module.Format] succeeds exactly when every file of every package
    formats, and then its codes are the module's packages, name by name,
    each with the renderings of its files. *)
Theorem Module_Format_complete m :
  ((Module_Format m).2 = None
   ↔ ∀ pk p k f, Module_Packages m !! pk = Some p →
                 Package_Files p !! k = Some f → (File_Format f).2 = None)
  ∧ ((Module_Format m).2 = None →
     (Module_Format m).1
     = (λ p, rendered <$> Package_Files p) <$> Module_Packages m).
Proof.
  split; [ split | ].
  - intros Hok pk p k f Hp Hk.
    destruct ((File_Format f).2) as [e|] eqn:E; [ | done ].
    exfalso. apply (Module_Format_fails m pk p k f Hp Hk); [ by rewrite E | ].
    done.
  - intros Hall. destruct (Module_Format m) as [codes [e|]] eqn:E; [ | done ].
    apply Module_Format_error in E as (pk & p & k & f & Hp & Hk & He).
    rewrite (Hall pk p k f Hp Hk) in He. done.
  - intros Hok. destruct (Module_Format m) as [codes r] eqn:E.
    simpl in *. subst r. apply map_eq. intros pk. rewrite lookup_fmap.
    rewrite (Module_Format_ok m codes E pk).
    destruct (Module_Packages m !! pk) as [p|] eqn:Hp; simpl; [ | done ].
    f_equal. apply Package_Format_codes.
    destruct ((Package_Format p).2) as [e|] eqn:Hf; [ | done ].
    exfalso. destruct (Package_Format p) as [sub r] eqn:Hpf. simpl in Hf.
    subst r. apply Package_Format_error in Hpf as (k & f & Hk & He).
    apply (Module_Format_fails m pk p k f Hp Hk); [ by rewrite He | ].
    by rewrite E.
Qed.

(** X4. [File.TryFormatNode] returns the rendered text when formatting
    succeeds, whatever defaults were passed; when formatting fails it
    returns the first default, or the empty string when none was passed. *)
Theorem File_TryFormatNode_spec f (node : ast_Node) (ds : list string) :
  ((format_Node (File_FileSet f) node).2 = None →
   File_TryFormatNode f node ds = (format_Node (File_FileSet f) node).1)
  ∧ ((format_Node (File_FileSet f) node).2 ≠ None →
     File_TryFormatNode f node ds = default "" (head ds)).
Proof.
  unfold File_TryFormatNode, File_FormatNode, FormatNode.
  destruct (format_Node (File_FileSet f) node) as [dst [e|]]; simpl; split;
    intros Hr; try done; by destruct ds.
Qed.

(** *** More on writing *)

Lemma writeFile_Abs_error k v w e :
  (filepath_Abs k).2 = Some e → writeFile k v w = (w, Some e).
Proof.
  unfold writeFile. destruct (filepath_Abs k) as [a r]. simpl. by intros ->.
Qed.

(** X5. [writeFile] does not undo what it did: whether it fails or not,
    every file but the one it names and every directory that existed are
    as before; a name that cannot be resolved leaves the storage alone;
    once the parent directory was made it stays, even if creating or
    writing the file then fails; and on success the file holds the text
    alone, whatever it held before. *)
Theorem writeFile_effects k v w :
  (∀ q, q ≠ abs_path k → content (writeFile k v w).1 q = content w q)
  ∧ (∀ x, is_dir w x = true → is_dir (writeFile k v w).1 x = true)
  ∧ (∀ e, (filepath_Abs k).2 = Some e → writeFile k v w = (w, Some e))
  ∧ ((filepath_Abs k).2 = None →
     (os_MkdirAll (filepath_Dir (abs_path k)) w).2 = None →
     is_dir (writeFile k v w).1 (filepath_Dir (abs_path k)) = true)
  ∧ ((writeFile k v w).2 = None →
     content (writeFile k v w).1 (abs_path k) = Some v).
Proof.
  split; [ intros q; apply writeFile_frame | ].
  split; [ intros x; apply writeFile_dirs | ].
  split; [ intros e; apply writeFile_Abs_error | ].
  split.
  - unfold writeFile, abs_path. destruct (filepath_Abs k) as [a r]. simpl.
    intros -> Hm.
    pose proof (MkdirAll_ok (filepath_Dir a) w Hm) as Hd.
    destruct (os_MkdirAll (filepath_Dir a) w) as [w1 r1]. simpl in *.
    subst r1.
    pose proof (Create_dirs a w1 (filepath_Dir a)) as Hc.
    destruct (os_Create a w1) as [w2 [e|]]; simpl in *; [ congruence | ].
    rewrite Write_dirs. congruence.
  - intros Hok. by destruct (writeFile_ok k v w Hok) as [Hc _].
Qed.

(** X6. [File.Store]: a formatting error is returned with the storage as
    it was; otherwise the rendered text is handed to [writeFile] under the
    file's name, so that on success the file is in place; either way no
    other file is touched. *)
Theorem File_Store_spec f w :
  (∀ e, (File_Format f).2 = Some e → File_Store f w = (w, Some e))
  ∧ ((File_Format f).2 = None →
     File_Store f w = writeFile (File_Filename f) (rendered f) w
     ∧ ((File_Store f w).2 = None →
        in_place (File_Store f w).1 (File_Filename f, rendered f)))
  ∧ (∀ q, q ≠ abs_path (File_Filename f) →
          content (File_Store f w).1 q = content w q).
Proof.
  unfold File_Store, rendered.
  destruct (File_Format f) as [code [e|]]; simpl.
  - split; [ by intros e' [= <-] | ]. split; done.
  - split; [ done | ]. split.
    + intros _. split; [ done | ]. apply writeFile_ok.
    + intros q. apply writeFile_frame.
Qed.

Lemma write_codes_app_ok l1 l2 w :
  (write_codes (l1 ++ l2) w).2 = None →
  (write_codes l1 w).2 = None
  ∧ write_codes (l1 ++ l2) w = write_codes l2 (write_codes l1 w).1.
Proof.
  rewrite write_codes_app.
  destruct (write_codes l1 w) as [w1 [e|]]; simpl; done.
Qed.

Lemma write_codes_last l w pre kv post :
  l = pre ++ kv :: post →
  (write_codes l w).2 = None →
  abs_path kv.1 ∉ abs_path <$> post.*1 →
  in_place (write_codes l w).1 kv.
Proof.
  intros -> Hok Hlast. destruct kv as [k v].
  apply write_codes_app_ok in Hok as Hsplit. destruct Hsplit as [Hpre Heq].
  rewrite Heq in Hok |- *. simpl in Hok |- *.
  pose proof (writeFile_ok k v (write_codes pre w).1) as Hf.
  destruct (writeFile k v (write_codes pre w).1) as [w2 [e|]];
    simpl in *; [ done | ].
  apply in_place_write_codes; [ done | by apply Hf ].
Qed.

Lemma Package_Store_ok_format p w :
  (Package_Store p w).2 = None → (Package_Format p).2 = None.
Proof.
  unfold Package_Store. by destruct (Package_Format p) as [codes [e|]].
Qed.

Lemma Module_Store_ok_format m w :
  (Module_Store m w).2 = None → (Module_Format m).2 = None.
Proof.
  unfold Module_Store. by destruct (Module_Format m) as [codes [e|]].
Qed.

(** X7. The last write wins: after a [Store] that ends without error,
    each entry that no later entry of the run writes over again is in
    place, also when several entries name the same file (as two packages
    of a module may). *)
Theorem Store_last_write_wins :
  (∀ p w pre kv post,
     (Package_Store p w).2 = None →
     Package_writes p = pre ++ kv :: post →
     abs_path kv.1 ∉ abs_path <$> post.*1 →
     in_place (Package_Store p w).1 kv)
  ∧ (∀ m w pre kv post,
       (Module_Store m w).2 = None →
       Module_writes m = pre ++ kv :: post →
       abs_path kv.1 ∉ abs_path <$> post.*1 →
       in_place (Module_Store m w).1 kv).
Proof.
  split.
  - intros p w pre kv post Hok Hl Hlast.
    pose proof (Package_Store_ok_format p w Hok) as Hf.
    rewrite (Package_Store_writes p w Hf) in Hok |- *.
    by apply (write_codes_last _ w pre kv post).
  - intros m w pre kv post Hok Hl Hlast.
    pose proof (Module_Store_ok_format m w Hok) as Hf.
    rewrite (Module_Store_writes m w Hf) in Hok |- *.
    by apply (write_codes_last _ w pre kv post).
Qed.

Lemma range_empty {A : Type} : range (∅ : gmap string A) = [].
Proof.
  apply Permutation_nil_r. rewrite (range_perm A ∅).
  by rewrite map_to_list_empty.
Qed.

(** X8. Nothing to store: for a package without files and for a module
    without packages, [Format] returns no codes and no error, and [Store]
    returns nil and leaves the storage as it was. *)
Theorem Store_empty :
  (∀ p w, Package_Files p = ∅ →
          Package_Format p = (∅, None) ∧ Package_Store p w = (w, None))
  ∧ (∀ m w, Module_Packages m = ∅ →
            Module_Format m = (∅, None) ∧ Module_Store m w = (w, None)).
Proof.
  split.
  - intros p w Hp.
    assert (Package_Format p = (∅, None)) as Hf.
    { unfold Package_Format. by rewrite Hp, range_empty. }
    split; [ done | ]. unfold Package_Store. rewrite Hf.
    by rewrite range_empty.
  - intros m w Hm.
    assert (Module_Format m = (∅, None)) as Hf.
    { unfold Module_Format. by rewrite Hm, range_empty. }
    split; [ done | ]. unfold Module_Store. rewrite Hf.
    by rewrite range_empty.
Qed.

Lemma write_codes_error l w w' e :
  write_codes l w = (w', Some e) →
  ∃ k v w1, (k, v) ∈ l ∧ writeFile k v w1 = (w', Some e).
Proof.
  revert w. induction l as [| [k v] l IH]; intros w; simpl; [ done | ].
  destruct (writeFile k v w) as [w1 [e1|]] eqn:E.
  - intros [= <- <-]. exists k, v, w. split; [ left | done ].
  - intros Hl. destruct (IH _ Hl) as (k' & v' & w2 & Hin & Hw).
    exists k', v', w2. split; [ by right | done ].
Qed.

(** X10. [Package.Store] passes errors on unchanged: an error it returns
    is either the formatting error of a file of the package, with the
    storage as it was, or the error [writeFile] returned for a file of the
    package that formatted, called with that file's name and rendering. *)
Theorem Package_Store_error p w w' e :
  Package_Store p w = (w', Some e) →
  (Package_fails_with p e ∧ w' = w)
  ∨ (∃ k f w1, Package_Files p !! k = Some f
               ∧ (File_Format f).2 = None
               ∧ writeFile k (rendered f) w1 = (w', Some e)).
Proof.
  unfold Package_Store.
  destruct (Package_Format p) as [codes [e'|]] eqn:E.
  - intros [= <- <-]. left. split; [ | done ].
    by apply (Package_Format_error p codes).
  - intros Hw. right.
    apply write_codes_error in Hw as (k & v & w1 & Hin & Hw).
    apply elem_of_range in Hin.
    rewrite (Package_Format_ok p codes E k) in Hin.
    destruct (Package_Files p !! k) as [f|] eqn:Hk; simpl in Hin; [ | done ].
    injection Hin as <-. exists k, f, w1. split; [ done | ].
    split; [ | done ].
    destruct ((File_Format f).2) as [e1|] eqn:Hf; [ | done ].
    exfalso. apply (Package_Format_fails p k f Hk); [ by rewrite Hf | ].
    by rewrite E.
Qed.

(** X11. [Store] stays within its entries: a file that is not the
    absolute name of a file of the package (of a package of the module)
    is left as it was, whether the run fails or not, and no directory
    that existed is removed. *)
Theorem Store_frame :
  (∀ p w q,
     (∀ k, is_Some (Package_Files p !! k) → q ≠ abs_path k) →
     content (Package_Store p w).1 q = content w q)
  ∧ (∀ m w q,
       (∀ pk p k, Module_Packages m !! pk = Some p →
                  is_Some (Package_Files p !! k) → q ≠ abs_path k) →
       content (Module_Store m w).1 q = content w q)
  ∧ (∀ p w x, is_dir w x = true → is_dir (Package_Store p w).1 x = true)
  ∧ (∀ m w x, is_dir w x = true → is_dir (Module_Store m w).1 x = true).
Proof.
  split; [ | split; [ | split ] ].
  - intros p w q Hq. unfold Package_Store.
    destruct (Package_Format p) as [codes [e|]] eqn:E; [ done | ].
    apply write_codes_frame. intros Hin.
    apply list_elem_of_fmap in Hin as (k & -> & Hin).
    apply list_elem_of_fmap in Hin as ([k' v] & -> & Hin). simpl in *.
    apply elem_of_range in Hin.
    rewrite (Package_Format_ok p codes E k') in Hin.
    apply (Hq k'); [ | done ].
    destruct (Package_Files p !! k'); [ by eexists | done ].
  - intros m w q Hq.
    destruct ((Module_Format m).2) as [e|] eqn:Hf.
    { unfold Module_Store. destruct (Module_Format m) as [codes r].
      simpl in Hf. by subst r. }
    rewrite (Module_Store_writes m w Hf).
    apply write_codes_frame. intros Hin.
    apply list_elem_of_fmap in Hin as (k & -> & Hin).
    apply list_elem_of_fmap in Hin as ([k' v] & -> & Hin). simpl in *.
    unfold Module_writes in Hin. apply list_elem_of_In in Hin.
    apply in_flat_map in Hin as ([pk sub] & Hpk & Hin). simpl in Hin.
    apply list_elem_of_In, elem_of_range in Hpk.
    apply list_elem_of_In, elem_of_range in Hin.
    destruct (Module_Format m) as [codes r] eqn:E. simpl in Hf, Hpk. subst r.
    rewrite (Module_Format_ok m codes E pk) in Hpk.
    destruct (Module_Packages m !! pk) as [p|] eqn:Hp; simpl in Hpk;
      [ | done ].
    injection Hpk as <-.
    assert ((Package_Format p).2 = None) as Hpf.
    { destruct ((Package_Format p).2) as [e|] eqn:Hpf; [ | done ].
      exfalso. destruct (Package_Format p) as [sub r] eqn:Hpe.
      simpl in Hpf. subst r.
      apply Package_Format_error in Hpe as (k & f & Hk & He).
      apply (Module_Format_fails m pk p k f Hp Hk); [ by rewrite He | ].
      by rewrite E. }
    rewrite (Package_Format_codes p Hpf), lookup_fmap in Hin.
    apply (Hq pk p k' Hp); [ | done ].
    destruct (Package_Files p !! k'); [ by eexists | done ].
  - intros p w x Hx. unfold Package_Store.
    destruct (Package_Format p) as [codes [e|]]; [ done | ].
    by apply write_codes_dirs.
  - intros m w x Hx.
    destruct ((Module_Format m).2) as [e|] eqn:Hf.
    { unfold Module_Store. destruct (Module_Format m) as [codes r].
      simpl in Hf. by subst r. }
    rewrite (Module_Store_writes m w Hf). by apply write_codes_dirs.
Qed.

End FormatProofs.

(* ===================================================================== *)
(** ** The code on the sample storage *)
(* ===================================================================== *)

#[global] Instance disk_StorageLaws : StorageLaws disk.
Proof.
  split; simpl.
  - intros d w p. unfold disk_MkdirAll. by destruct (disk_files w !! d).
  - intros d w x Hx. unfold disk_MkdirAll.
    destruct (disk_files w !! d); simpl; [ done | ].
    apply bool_decide_eq_true in Hx. apply bool_decide_eq_true.
    set_solver.
  - intros d w. unfold disk_MkdirAll.
    destruct (disk_files w !! d); simpl; [ done | ].
    intros _. apply bool_decide_eq_true. set_solver.
  - intros p w q Hq. unfold disk_Create.
    repeat case_bool_decide; simpl; try done. by rewrite lookup_insert_ne.
  - intros p w. unfold disk_Create.
    repeat case_bool_decide; simpl; try done. intros _.
    by rewrite lookup_insert_eq.
  - intros p w x. unfold disk_Create. by repeat case_bool_decide.
  - intros p t w q Hq. unfold disk_Write.
    destruct (disk_files w !! p); simpl; [ | done ].
    by rewrite lookup_insert_ne.
  - intros p t w old Hold. unfold disk_Write. rewrite Hold. simpl.
    intros _. by rewrite lookup_insert_eq.
  - intros p t w x. unfold disk_Write. by destruct (disk_files w !! p).
Qed.

Lemma sample_range_laws : @MapRangeLaws sample_range.
Proof. intros A m. reflexivity. Qed.


Lemma quota_StorageLaws (quota : nat) : @StorageLaws disk (quota_Storage quota).
Proof.
  split; simpl.
  - intros d w p. unfold disk_MkdirAll. by destruct (disk_files w !! d).
  - intros d w x Hx. unfold disk_MkdirAll.
    destruct (disk_files w !! d); simpl; [ done | ].
    apply bool_decide_eq_true in Hx. apply bool_decide_eq_true.
    set_solver.
  - intros d w. unfold disk_MkdirAll.
    destruct (disk_files w !! d); simpl; [ done | ].
    intros _. apply bool_decide_eq_true. set_solver.
  - intros p w q Hq. unfold disk_Create.
    repeat case_bool_decide; simpl; try done. by rewrite lookup_insert_ne.
  - intros p w. unfold disk_Create.
    repeat case_bool_decide; simpl; try done. intros _.
    by rewrite lookup_insert_eq.
  - intros p w x. unfold disk_Create. by repeat case_bool_decide.
  - intros p t w q Hq. unfold disk_Write_quota.
    destruct (disk_files w !! p); simpl; [ | done ].
    case_decide; simpl; [ | done ]. by rewrite lookup_insert_ne.
  - intros p t w old Hold. unfold disk_Write_quota. rewrite Hold.
    case_decide; simpl; [ | done ]. intros _. by rewrite lookup_insert_eq.
  - intros p t w x. unfold disk_Write_quota.
    destruct (disk_files w !! p); [ | done ]. by case_decide.
Qed.


(** One file of the package does not format: [Store] returns an error and
    the storage is as it was. *)
Lemma Store_formats_before_writing_witness :
  (sample_Package_Store one_bad_file a_readonly).1 = a_readonly
  ∧ (sample_Package_Store one_bad_file a_readonly).2 ≠ None.
Proof.
  destruct (@Store_formats_before_writing unit (option string) sample_format
              sample_range sample_range_laws disk disk_Storage) as [HP _].
  destruct (HP one_bad_file a_readonly) as [Hfail _].
  destruct (Hfail (mkError "format: invalid node")) as (e' & Hrun & _).
  - exists "/src/b/bad.go", (sample_file "/src/b/bad.go" None).
    split; vm_compute; reflexivity.
  - fold sample_Package_Store in Hrun. rewrite Hrun.
    split; [ reflexivity | discriminate ].
Defined.

(** A file that does not format, and one that does. *)
Lemma File_String_total_witness :
  sample_File_String (sample_file "bad.go" None)
  = "// Formatting error: format: invalid node"
  ∧ sample_File_String (sample_file "ok.go" (Some "package ok"))
    = "package ok".
Proof.
  split.
  - exact (proj1 (@File_String_total unit (option string) sample_format
                    (sample_file "bad.go" None))
             (mkError "format: invalid node") eq_refl).
  - exact (proj2 (@File_String_total unit (option string) sample_format
                    (sample_file "ok.go" (Some "package ok"))) eq_refl).
Defined.

(* ===================================================================== *)
(** ** More runs on the sample storage *)
(* ===================================================================== *)

#[local] Existing Instance sample_format.
#[local] Existing Instance sample_range.
#[local] Existing Instance sample_range_laws.

(** The three files format: the codes hold each of them, rendered. *)
Lemma Package_Format_complete_witness :
  (Package_Format three_files).1 = rendered <$> Package_Files three_files.
Proof.
  refine (proj2 (Package_Format_complete three_files) _).
  vm_compute. reflexivity.
Defined.


Lemma Module_Format_complete_witness :
  (Module_Format one_package).1
  = (λ p, rendered <$> Package_Files p) <$> Module_Packages one_package.
Proof.
  refine (proj2 (Module_Format_complete one_package) _).
  vm_compute. reflexivity.
Defined.

(** A node that does not format, with and without a default; a node that
    formats, with a default. *)
Lemma File_TryFormatNode_spec_witness :
  File_TryFormatNode (sample_file "a.go" None) None ["fallback"; "unused"]
  = "fallback"
  ∧ File_TryFormatNode (sample_file "a.go" None) None [] = ""
  ∧ File_TryFormatNode (sample_file "a.go" None) (Some "package a")
      ["fallback"] = "package a".
Proof.
  split; [ | split ].
  - refine (proj2 (File_TryFormatNode_spec (sample_file "a.go" None) None
                     ["fallback"; "unused"]) _).
    vm_compute. discriminate.
  - refine (proj2 (File_TryFormatNode_spec (sample_file "a.go" None) None
                     []) _).
    vm_compute. discriminate.
  - refine (proj1 (File_TryFormatNode_spec (sample_file "a.go" None)
                     (Some "package a") ["fallback"]) _).
    vm_compute. reflexivity.
Defined.

(** A write that fails on creating the file, in a read-only directory:
    the directory was made and stays, another file is as before. *)
Lemma writeFile_effects_witness :
  is_dir (writeFile "/src/a/one.go" "package a" a_readonly).1
    (filepath_Dir (abs_path "/src/a/one.go")) = true
  ∧ (writeFile "/src/a/one.go" "package a" a_readonly).2 ≠ None
  ∧ content (writeFile "/src/c/three.go" "package c" a_readonly).1
      (abs_path "/src/c/three.go") = Some "package c".
Proof.
  destruct (writeFile_effects "/src/a/one.go" "package a" a_readonly)
    as (_ & _ & _ & Hdir & _).
  destruct (writeFile_effects "/src/c/three.go" "package c" a_readonly)
    as (_ & _ & _ & _ & Hok).
  split; [ | split ].
  - refine (Hdir _ _); vm_compute; reflexivity.
  - vm_compute. discriminate.
  - refine (Hok _). vm_compute. reflexivity.
Defined.

Lemma File_Store_spec_witness :
  in_place
    (File_Store (sample_file "/src/c/three.go" (Some "package c"))
       a_readonly).1
    ("/src/c/three.go", "package c")
  ∧ File_Store (sample_file "/src/c/bad.go" None) a_readonly
    = (a_readonly, Some (mkError "format: invalid node")).
Proof.
  split.
  - destruct (File_Store_spec
                (sample_file "/src/c/three.go" (Some "package c")) a_readonly)
      as (_ & Hok & _).
    destruct Hok as [_ Hplace]; [ vm_compute; reflexivity | ].
    refine (Hplace _). vm_compute. reflexivity.
  - destruct (File_Store_spec (sample_file "/src/c/bad.go" None) a_readonly)
      as (Herr & _).
    refine (Herr (mkError "format: invalid node") _).
    vm_compute. reflexivity.
Defined.

(** Two packages name [/src/x.go]; the one written last is in place. *)
Lemma Store_last_write_wins_witness :
  in_place (Module_Store same_file_twice empty_disk).1
    ("/src/x.go", "package p2").
Proof.
  destruct (@Store_last_write_wins unit (option string) sample_format
              sample_range disk disk_Storage disk_StorageLaws) as [_ HM].
  refine (HM same_file_twice empty_disk [("/src/x.go", "package p1")]
            ("/src/x.go", "package p2") [] _ _ _).
  - vm_compute. reflexivity.
  - vm_compute. reflexivity.
  - compute_done.
Defined.

Lemma Store_empty_witness :
  Package_Store no_files a_readonly = (a_readonly, None).
Proof.
  destruct (@Store_empty unit (option string) sample_format sample_range
              sample_range_laws disk disk_Storage) as [HP _].
  exact (proj2 (HP no_files a_readonly eq_refl)).
Defined.

(** The error of the run with the read-only directory is the one
    [writeFile] returned. *)
Lemma Package_Store_error_witness :
  (Package_fails_with three_files
     (mkError "open /src/a/one.go: permission denied")
   ∧ (Package_Store three_files a_readonly).1 = a_readonly)
  ∨ (∃ k f w1,
       Package_Files three_files !! k = Some f
       ∧ (File_Format f).2 = None
       ∧ writeFile k (rendered f) w1
         = ((Package_Store three_files a_readonly).1,
            Some (mkError "open /src/a/one.go: permission denied"))).
Proof.
  refine (Package_Store_error three_files a_readonly
            (Package_Store three_files a_readonly).1
            (mkError "open /src/a/one.go: permission denied") _).
  vm_compute. reflexivity.
Defined.

(** A file outside the package is as before, after the failing run. *)
Lemma Store_frame_witness :
  content (Package_Store three_files a_readonly).1 "/etc/hosts"
  = content a_readonly "/etc/hosts".
Proof.
  destruct (@Store_frame unit (option string) sample_format sample_range
              sample_range_laws disk disk_Storage disk_StorageLaws)
    as (HP & _).
  apply HP. intros k [f Hk]. apply elem_of_map_to_list in Hk.
  assert (map_to_list (Package_Files three_files)
          = [("/src/c/three.go",
               sample_file "/src/c/three.go" (Some "package c"));
             ("/src/a/one.go", sample_file "/src/a/one.go" (Some "package a"));
             ("/src/b/two.go", sample_file "/src/b/two.go" (Some "package b"))])
    as E by (vm_compute; reflexivity).
  rewrite E in Hk. rewrite !elem_of_cons, elem_of_nil in Hk.
  destruct Hk as [Hk | [Hk | [Hk | []]]]; injection Hk as -> _;
    vm_compute; discriminate.
Defined.

Lemma getBasicKind_primitives_witness :
  ("float64", Float64) ∈ builtin_kinds
  ∧ (getBasicKind "byte").1 = Invalid
  ∧ (2 ≤ Kind_value Complex128 ≤ 18)%Z.
Proof.
  destruct getBasicKind_primitives as (Hfound & Hinv & _ & Hrange).
  split; [ | split ].
  - apply (Hfound "float64" Float64). reflexivity.
  - apply (Hinv "byte"). reflexivity.
  - apply (Hrange Complex128). exists "complex128". reflexivity.
Defined.

